(** * unikorn-images: conformance audit of image property bags

    A shallow embedding of [main.go]: the per-image report printed by
    [process], the eligibility filter and loop of [main], and the schema
    [schemav2] the program compiles at start-up. *)

From Stdlib Require Import ZArith String Ascii List.
From stdpp Require Import gmap strings list fin_maps.

Local Open Scope string_scope.
Local Open Scope list_scope.
Local Open Scope Z_scope.

(** ** Data as the program has it *)

(** A decoded JSON value, the dynamic type [any] of Go. [Nil] is the nil
    interface: what a JSON null decodes to and also what indexing a map with
    a key it does not hold yields. *)
#[local] Unset Elimination Schemes.
Inductive any : Type :=
  | Nil
  | Str (s : string)
  | Bool (b : bool)
  | Number (literal : string)
  | Array (elems : list any)
  | Object (fields : list (string * any)).
#[local] Set Elimination Schemes.

(** [m[k]] on a [map[string]any]: the zero value when the key is not there. *)
Definition index (m : gmap string any) (k : string) : any :=
  default Nil (m !! k).

(** An instant ([time.Time]); only passed through to the printer. *)
Definition Time : Type := Z.

(** [images.Image], the fields [process] and [main] read. [SizeBytes] is an
    [int64]. *)
Record Image : Type := {
  ID : string;
  Name : string;
  CreatedAt : Time;
  SizeBytes : Z;
  Properties : gmap string any
}.

(** [jsonschema.EvaluationError] and [jsonschema.EvaluationResult]: the
    types are declared by the dependency; these are the fields [process]
    reads, every entry of [Errors] being a non-nil pointer. *)
Record EvaluationError : Type := {
  Params : gmap string any
}.

Record EvaluationResult : Type := {
  Valid : bool;
  Errors : gmap string EvaluationError
}.

(** A compiled [*jsonschema.Schema]: the one method [process] calls, taken
    as a function of the bag. A value of this type is the validator as it
    answers in one run; what may change from one run to the next is with
    [audit_prints]. *)
Record Schema : Type := {
  Validate : gmap string any → EvaluationResult
}.

(** ** Standard output

    One [line] per call of [fmt.Println], holding the operands of the call in
    order; how [fmt] renders an operand is not part of the model. A [line]
    is a call, not a line of text: an operand that holds a newline renders
    to several lines of text, and operands that differ may render alike.
    Two outputs that are equal here are equal as text. *)
Inductive operand : Type :=
  | OStr (s : string)
  | OInt (n : Z)
  | OTime (t : Time)
  | OAny (v : any).

Inductive line : Type :=
  | Println (operands : list operand).

Definition ESC : string := String (ascii_of_nat 27) EmptyString.

(** ** [process] *)

(** Line 96: [image.SizeBytes>>30], an arithmetic shift of an [int64]. *)
Definition sizeGiB (image : Image) : Z := Z.shiftr (SizeBytes image) 30.

(** Lines 92-96. *)
Definition header (image : Image) : list line :=
  [ Println [OStr "---"];
    Println [OStr "id:"; OStr (ID image)];
    Println [OStr "name:"; OStr (Name image)];
    Println [OStr "createdAt:"; OTime (CreatedAt image)];
    Println [OStr "sizeGiB:"; OInt (sizeGiB image)] ].

(** Lines 100-103. *)
Definition failure_header : list line :=
  [ Println [OStr "error:"];
    Println [OStr ("  message: " +:+ ESC +:+ "[1;31mImage does not match Unikorn Schema V2" +:+ ESC +:+ "[0m")];
    Println [OStr "  documentation: See https://github.com/unikorn-cloud/specifications/blob/main/specifications/providers/openstack/flavors_and_images.md"];
    Println [OStr "  detail:"] ].

(** Lines 112-116: the parameter may be named in the singular or the plural. *)
Definition params_lines (evaluationError : EvaluationError) : list line :=
  flat_map
    (λ k, match Params evaluationError !! k with
          | Some v => [Println [OStr "    properties:"; OAny v]]
          | None => []
          end)
    ["property"; "properties"].

(** Lines 109-116: the case "properties" of the switch. *)
Definition properties_case (evaluationError : EvaluationError) : list line :=
  Println [OStr "  - message: Object properties failed validation or do not exist"]
    :: params_lines evaluationError.

(** Lines 106-117: the body of the loop over the error categories. *)
Definition detail (entry : string * EvaluationError) : list line :=
  let '(errorType, evaluationError) := entry in
  if decide (errorType = "properties") then properties_case evaluationError
  else [].

(** Lines 100-118, with the categories visited in the order [entries]. *)
Definition failure_view (entries : list (string * EvaluationError)) : list line :=
  failure_header ++ flat_map detail entries.

(** What the loop of lines 105-118 prints, read off the error map: only the
    entry under "properties" contributes. *)
Definition details_of (errors : gmap string EvaluationError) : list line :=
  match errors !! "properties" with
  | Some evaluationError => properties_case evaluationError
  | None => []
  end.

(** One of the three loops of lines 125-139. *)
Definition members (props : gmap string any) (prefix : string) (names : list string) : list line :=
  map (λ name, Println [OStr ("  " +:+ name +:+ ":"); OAny (index props (prefix +:+ name))]) names.

(** Lines 123-142. *)
Definition fields_view (image : Image) : list line :=
  let props := Properties image in
  Println [OStr "os:"]
    :: members props "unikorn:os:" ["kernel"; "family"; "distro"; "variant"; "codename"; "version"]
  ++ Println [OStr "package:"]
    :: members props "unikorn:package:" ["kubernetes"; "slurmd"]
  ++ Println [OStr "gpu:"]
    :: members props "unikorn:gpu_" ["vendor"; "models"; "driver"]
  ++ [ Println [OStr "virtualization:"; OAny (index props "unikorn:virtualization")];
       Println [OStr "digest:"; OAny (index props "unikorn:digest")] ].

(** [process], with the order in which [range maps.Keys(result.Errors)]
    visits the map made explicit: [walk] is that order. *)
Definition process_walk (walk : list (string * EvaluationError))
    (image : Image) (schema : Schema) : list line :=
  let result := Validate schema (Properties image) in
  header image ++
  if negb (Valid result) then failure_view walk else fields_view image.

(** Go leaves the iteration order of a map open: every permutation of the
    entries is a possible run. *)
Definition process_prints (image : Image) (schema : Schema) (out : list line) : Prop :=
  ∃ walk, walk ≡ₚ map_to_list (Errors (Validate schema (Properties image)))
          ∧ out = process_walk walk image schema.

(** The run that visits the entries in the order of [map_to_list]. *)
Definition process (image : Image) (schema : Schema) : list line :=
  process_walk (map_to_list (Errors (Validate schema (Properties image)))) image schema.

(** The two outcomes of a classification: the branch taken at line 99. *)
Inductive Outcome : Type := Conforming | NonConforming.

Definition classify (schema : Schema) (bag : gmap string any) : Outcome :=
  if negb (Valid (Validate schema bag)) then NonConforming else Conforming.

(** ** [main], from the listed images on *)

(** Lines 192-194: does some key of the bag start with "unikorn:"? *)
Definition in_scope (image : Image) : bool :=
  existsb (String.prefix "unikorn:") (map_to_list (Properties image)).*1.

(** Lines 191-195: [slices.DeleteFunc] drops the images out of scope and
    keeps the others in order. *)
Definition eligible (result : list Image) : list Image :=
  filter (λ image, in_scope image = true) result.

(** Lines 197-199: the loop, with standard output threaded through. *)
Fixpoint run (schema : Schema) (result : list Image) (stdout : list line) : list line :=
  match result with
  | [] => stdout
  | image :: rest => run schema rest (stdout ++ process image schema)
  end.

(** What [main] prints once the images are listed (lines 191-199). *)
Definition main_output (schema : Schema) (result : list Image) : list line :=
  run schema (eligible result) [].

(** ** Schema v2

    The constant [schemav2] (lines 19-89) as the data it denotes: a schema
    of type "object" with a list of required keys and, per declared
    property, a type and an optional closed enumeration. *)
Inductive json_type : Type :=
  | TString | TNumber | TBoolean | TNull | TArray | TObject.

Record PropertySchema : Type := {
  type_ : json_type;
  enum : option (list string)
}.

Record ObjectSchema : Type := {
  required : list string;
  properties : list (string * PropertySchema)
}.

Definition free_form : PropertySchema := {| type_ := TString; enum := None |}.
Definition one_of (values : list string) : PropertySchema :=
  {| type_ := TString; enum := Some values |}.

Definition schemav2 : ObjectSchema := {|
  required :=
    [ "unikorn:os:kernel"; "unikorn:os:family"; "unikorn:os:distro";
      "unikorn:os:version"; "unikorn:virtualization" ];
  properties :=
    [ ("unikorn:os:kernel", one_of ["linux"]);
      ("unikorn:os:family", one_of ["debian"; "redhat"]);
      ("unikorn:os:distro", one_of ["ubuntu"; "rocky"]);
      ("unikorn:os:variant", free_form);
      ("unikorn:os:codename", free_form);
      ("unikorn:os:version", free_form);
      ("unikorn:package:kubernetes", free_form);
      ("unikorn:package:slurmd", free_form);
      ("unikorn:gpu_vendor", one_of ["AMD"; "NVIDIA"]);
      ("unikorn:gpu_models", free_form);
      ("unikorn:gpu_driver", free_form);
      ("unikorn:virtualization", one_of ["any"; "baremetal"; "virtualized"]);
      ("unikorn:digest", free_form) ]
|}.

(** ** The validator

    [compiler.Compile] and [Schema.Validate] belong to the jsonschema
    dependency, whose sources are not with the program. The definitions of
    this part follow the specification of the classifier. *)

(** Modelled from the spec: the type check of the validator, which is not
    part of the sources; a value has the JSON type its constructor says. *)
Definition has_type (t : json_type) (v : any) : bool :=
  match t, v with
  | TString, Str _ | TNumber, Number _ | TBoolean, Bool _
  | TNull, Nil | TArray, Array _ | TObject, Object _ => true
  | _, _ => false
  end.

(** Modelled from the spec: the enumeration check of the validator, which
    is not part of the sources; an enumeration is a closed set of strings
    and only a string that is a member of it passes. *)
Definition in_enum (e : option (list string)) (v : any) : bool :=
  match e with
  | None => true
  | Some values =>
      match v with
      | Str s => bool_decide (s ∈ values)
      | _ => false
      end
  end.

(** Modelled from the spec: the per-key check of the validator, which is not
    part of the sources; a value satisfies the constraint of its key. *)
Definition satisfies (p : PropertySchema) (v : any) : bool :=
  has_type (type_ p) v && in_enum (enum p) v.

(** Modelled from the spec: the required-key check of the validator, which
    is not part of the sources; the required keys the bag does not hold, in
    the order of [required]. A key held with any value, the empty string
    too, is present. *)
Definition missing (s : ObjectSchema) (bag : gmap string any) : list string :=
  filter (λ k, bag !! k = None) (required s).

(** Modelled from the spec: the property check of the validator, which is
    not part of the sources; a declared key offends when the bag holds it
    with a value that breaks its constraint, or when it is required and the
    bag does not hold it. *)
Definition offends (s : ObjectSchema) (bag : gmap string any)
    (entry : string * PropertySchema) : bool :=
  match bag !! entry.1 with
  | Some v => negb (satisfies entry.2 v)
  | None => bool_decide (entry.1 ∈ required s)
  end.

(** Modelled from the spec: the offending keys the validator, which is not
    part of the sources, gathers into one defect; in the order the schema
    declares them. *)
Definition offending (s : ObjectSchema) (bag : gmap string any) : list string :=
  (filter (λ entry, offends s bag entry = true) (properties s)).*1.

(** Modelled from the spec: the key list a violation of the validator,
    which is not part of the sources, carries; one key stands alone, several
    come as a list. *)
Definition key_list (keys : list string) : any :=
  match keys with
  | [k] => Str k
  | _ => Array (Str <$> keys)
  end.

(** Modelled from the spec: a violation of the validator, which is not part
    of the sources; the key list is under the parameter "property" when it
    is one key and under "properties" when there are several (the two names
    lines 112-116 look up). *)
Definition violation (keys : list string) : EvaluationError :=
  {| Params := match keys with
               | [_] => {[ "property" := key_list keys ]}
               | _ => {[ "properties" := key_list keys ]}
               end |}.

(** Modelled from the spec: one entry of the error map of the validator,
    which is not part of the sources; the category [keyword] is reported
    when [keys] is not empty. *)
Definition report_under (keyword : string) (keys : list string)
    (errors : gmap string EvaluationError) : gmap string EvaluationError :=
  match keys with
  | [] => errors
  | _ => <[ keyword := violation keys ]> errors
  end.

(** Modelled from the spec: [compiler.Compile] and [Schema.Validate] of the
    jsonschema dependency are not part of the sources. A bag conforms when
    every required key is present and every present declared key satisfies
    its constraint; keys the schema does not declare are not looked at.
    Violations are grouped by category: "required" carries the missing
    required keys, and "properties" carries, as one entry, all offending
    keys (missing or invalid). *)
Definition Compile (s : ObjectSchema) : Schema := {|
  Validate bag :=
    let errors :=
      report_under "properties" (offending s bag)
        (report_under "required" (missing s bag) ∅) in
    {| Valid := bool_decide (errors = ∅); Errors := errors |}
|}.

(** Line 151: the schema [main] compiles and hands to [process]. *)
Definition schema_v2 : Schema := Compile schemav2.

(** ** The runs of the validator

    The declared properties of a schema are a JSON object. The order in
    which the text of [schemav2] lists them is one order among others: a
    validator that holds them in a Go map visits them in an order that the
    language leaves open, and gathers the offending keys in that order. *)

(** Modelled from the spec: the schema as the validator, which is not part
    of the sources, walks it in one run; the required keys are a list and
    stay as they are, the declared properties are visited in the order
    [order]. *)
Definition visiting (s : ObjectSchema) (order : list (string * PropertySchema)) : ObjectSchema :=
  {| required := required s; properties := order |}.

(** Modelled from the spec: what one run of the program prints for an
    image, the validator being the one of the dependency, which is not part
    of the sources: the validator visits the declared properties in some
    order, and [process] visits the error categories in some order. *)
Definition audit_prints (s : ObjectSchema) (image : Image) (out : list line) : Prop :=
  ∃ order, order ≡ₚ properties s
           ∧ process_prints image (Compile (visiting s order)) out.

(** Modelled from the spec: the outcome of one run of the validator of the
    dependency, which is not part of the sources, on a bag. *)
Definition audit_outcome (s : ObjectSchema) (bag : gmap string any) (o : Outcome) : Prop :=
  ∃ order, order ≡ₚ properties s ∧ classify (Compile (visiting s order)) bag = o.

(** ** Vocabulary of the statements *)

(** The report of one image, read off the validation result: the identity
    header, then one of the two views. *)
Definition report (schema : Schema) (image : Image) : list line :=
  header image ++
  match classify schema (Properties image) with
  | NonConforming =>
      failure_header ++ details_of (Errors (Validate schema (Properties image)))
  | Conforming => fields_view image
  end.

(** The members of the conforming view (lines 125-142): the label printed
    and the key whose value follows it. *)
Definition field_table : list (string * string) :=
  [ ("  kernel:", "unikorn:os:kernel");
    ("  family:", "unikorn:os:family");
    ("  distro:", "unikorn:os:distro");
    ("  variant:", "unikorn:os:variant");
    ("  codename:", "unikorn:os:codename");
    ("  version:", "unikorn:os:version");
    ("  kubernetes:", "unikorn:package:kubernetes");
    ("  slurmd:", "unikorn:package:slurmd");
    ("  vendor:", "unikorn:gpu_vendor");
    ("  models:", "unikorn:gpu_models");
    ("  driver:", "unikorn:gpu_driver");
    ("virtualization:", "unikorn:virtualization");
    ("digest:", "unikorn:digest") ].

(** The keys a schema declares, in the order of the declaration. *)
Definition declared (s : ObjectSchema) : list string := (properties s).*1.

(** Every required key is in the bag. *)
Definition required_present (s : ObjectSchema) (bag : gmap string any) : Prop :=
  ∀ k, k ∈ required s → is_Some (bag !! k).

(** Every declared key the bag holds satisfies its constraint. *)
Definition present_valid (s : ObjectSchema) (bag : gmap string any) : Prop :=
  ∀ k p v, (k, p) ∈ properties s → bag !! k = Some v → satisfies p v = true.

(** The same, as a test that evaluates. *)
Definition present_validb (s : ObjectSchema) (bag : gmap string any) : bool :=
  forallb (λ entry, match bag !! entry.1 with
                    | Some v => satisfies entry.2 v
                    | None => true
                    end) (properties s).

(** The two lines of the one defect [process] prints: the category message
    and the key list. *)
Definition defect_lines (keys : list string) : list line :=
  [ Println [OStr "  - message: Object properties failed validation or do not exist"];
    Println [OStr "    properties:"; OAny (key_list keys)] ].

(** The report of an image under the compiled schema [s], with the keys of
    the defect taken in the order [keys]. *)
Definition audit_report (s : ObjectSchema) (image : Image) (keys : list string) : list line :=
  header image ++
  match classify (Compile s) (Properties image) with
  | Conforming => fields_view image
  | NonConforming =>
      failure_header ++ match keys with [] => [] | _ => defect_lines keys end
  end.

(** ** Sample images *)

Definition image_of (size : Z) (bag : gmap string any) : Image :=
  {| ID := "0a1b"; Name := "sample"; CreatedAt := 0; SizeBytes := size;
     Properties := bag |}.

Definition bag_minimal : gmap string any :=
  <[ "unikorn:os:kernel" := Str "linux" ]>
  (<[ "unikorn:os:family" := Str "debian" ]>
  (<[ "unikorn:os:distro" := Str "ubuntu" ]>
  (<[ "unikorn:os:version" := Str "22.04" ]>
  {[ "unikorn:virtualization" := Str "any" ]}))).

Definition bag_kernel_only : gmap string any :=
  {[ "unikorn:os:kernel" := Str "linux" ]}.

Definition bag_windows : gmap string any :=
  <[ "unikorn:os:kernel" := Str "windows" ]> bag_minimal.



Definition bag_foreign : gmap string any :=
  <[ "os_distro" := Str "ubuntu" ]> {[ "hw_disk_bus" := Str "scsi" ]}.

(** ** [main], from its first line

    The start-up of [main] (lines 146-189) calls six operations of its
    dependencies, each of which hands back a value or an error. After each
    call the same check follows: on an error, print it and leave with
    status 1. *)

(** The message of an [error] value: what [fmt.Println(err)] prints. *)
Definition error : Type := string.

(** [images.ImageVisibility], the field of [images.ListOpts] line 176 sets. *)
Inductive ImageVisibility : Type :=
  | ImageVisibilityPublic
  | ImageVisibilityPrivate
  | ImageVisibilityShared
  | ImageVisibilityCommunity.

Record ListOpts : Type := {
  Visibility : ImageVisibility
}.

(** The operations [main] calls, as what they hand back: [inl] is the error,
    [inr] the value. A call that runs into the one-minute limit of the
    context of line 146 hands back an error as any other failure does. *)
Record Collaborators : Type := {
  AuthOptions : Type;
  EndpointOpts : Type;
  TLSConfig : Type;
  ProviderClient : Type;
  ServiceClient : Type;
  Page : Type;
  (** line 151, [compiler.Compile([]byte(schemav2))] *)
  CompileSchema : error + Schema;
  (** line 157, [clouds.Parse()] *)
  Parse : error + (AuthOptions * EndpointOpts * TLSConfig);
  (** line 163, [config.NewProviderClient] *)
  NewProviderClient : AuthOptions → TLSConfig → error + ProviderClient;
  (** line 169, [openstack.NewImageV2] *)
  NewImageV2 : ProviderClient → EndpointOpts → error + ServiceClient;
  (** line 179, [images.List(client, opts).AllPages(ctx)] *)
  AllPages : ServiceClient → ListOpts → error + Page;
  (** line 185, [images.ExtractImages] *)
  ExtractImages : Page → error + list Image
}.

(** A run of [main] up to some point: it goes on with a value, or it has
    called [os.Exit] with what it printed before. *)
Inductive step (A : Type) : Type :=
  | Continue (a : A)
  | Exited (stdout : list line) (code : Z).
Arguments Continue {A} a.
Arguments Exited {A} stdout code.

#[local] Instance step_ret : MRet step := λ A a, Continue a.

#[local] Instance step_bind : MBind step := λ A B k m,
  match m with
  | Continue a => k a
  | Exited stdout code => Exited stdout code
  end.

(** [if err != nil { fmt.Println(err); os.Exit(1) }], the check after each
    of the six calls. *)
Definition or_exit {A : Type} (r : error + A) : step A :=
  match r with
  | inl err => Exited [Println [OStr err]] 1
  | inr a => Continue a
  end.

(** Lines 145-200. The value of a run that reaches the end is what it
    printed; it then leaves with status 0. *)
Definition main (w : Collaborators) : step (list line) :=
  schema ← or_exit (CompileSchema w);
  '(authOptions, endpointOpts, tlsConfig) ← or_exit (Parse w);
  providerClient ← or_exit (NewProviderClient w authOptions tlsConfig);
  client ← or_exit (NewImageV2 w providerClient endpointOpts);
  let opts := {| Visibility := ImageVisibilityPublic |} in
  page ← or_exit (AllPages w client opts);
  result ← or_exit (ExtractImages w page);
  mret (main_output schema result).

(** The call that stops [main]: [err] is the error of the first of the six
    calls that fails, every call before it having handed back a value. *)
Definition fails (w : Collaborators) (err : error) : Prop :=
  CompileSchema w = inl err
  ∨ ∃ schema, CompileSchema w = inr schema ∧
    (Parse w = inl err
     ∨ ∃ authOptions endpointOpts tlsConfig,
       Parse w = inr (authOptions, endpointOpts, tlsConfig) ∧
       (NewProviderClient w authOptions tlsConfig = inl err
        ∨ ∃ providerClient,
          NewProviderClient w authOptions tlsConfig = inr providerClient ∧
          (NewImageV2 w providerClient endpointOpts = inl err
           ∨ ∃ client,
             NewImageV2 w providerClient endpointOpts = inr client ∧
             (AllPages w client {| Visibility := ImageVisibilityPublic |} = inl err
              ∨ ∃ page,
                AllPages w client {| Visibility := ImageVisibilityPublic |} = inr page
                ∧ ExtractImages w page = inl err)))).

(** A cloud with nothing to configure that lists [listing], behind a schema
    that compiles to [schema]; and the same cloud when the listing call
    fails with [err]. *)
Definition cloud_listing (schema : Schema) (listing : list Image) : Collaborators :=
  {| AuthOptions := unit; EndpointOpts := unit; TLSConfig := unit;
     ProviderClient := unit; ServiceClient := unit; Page := list Image;
     CompileSchema := inr schema;
     Parse := inr (tt, tt, tt);
     NewProviderClient _ _ := inr tt;
     NewImageV2 _ _ := inr tt;
     AllPages _ opts :=
       match Visibility opts with
       | ImageVisibilityPublic => inr listing
       | _ => inl "visibility not served"
       end;
     ExtractImages page := inr page |}.

Definition cloud_unreachable (schema : Schema) (err : error) : Collaborators :=
  {| AuthOptions := unit; EndpointOpts := unit; TLSConfig := unit;
     ProviderClient := unit; ServiceClient := unit; Page := list Image;
     CompileSchema := inr schema;
     Parse := inr (tt, tt, tt);
     NewProviderClient _ _ := inl err;
     NewImageV2 _ _ := inr tt;
     AllPages _ _ := inr [];
     ExtractImages page := inr page |}.

(** A listing of two images, the second with no key of the schema. *)
Definition cloud_sample : Collaborators :=
  cloud_listing schema_v2 [image_of 1 bag_minimal; image_of 0 bag_foreign].

(** An image with another bag. *)
Definition with_properties (image : Image) (bag : gmap string any) : Image :=
  {| ID := ID image; Name := Name image; CreatedAt := CreatedAt image;
     SizeBytes := SizeBytes image; Properties := bag |}.

(** Settle a decidable statement about concrete data by evaluating it. *)
Ltac by_evaluation :=
  match goal with
  | |- ?P => apply (bool_decide_eq_true_1 P); vm_compute; reflexivity
  end.

(** ** The loop over the error categories does not depend on its order *)

Section error_walk.
Implicit Types (walk : list (string * EvaluationError))
               (errors : gmap string EvaluationError).

Lemma detail_other errorType evaluationError :
  errorType ≠ "properties" → detail (errorType, evaluationError) = [].
Proof. intros Hne. unfold detail. by rewrite decide_False. Qed.

Lemma detail_properties evaluationError :
  detail ("properties", evaluationError) = properties_case evaluationError.
Proof. unfold detail. by rewrite decide_True. Qed.

Lemma flat_map_detail_absent walk :
  "properties" ∉ walk.*1 → flat_map detail walk = [].
Proof.
  induction walk as [|[errorType evaluationError] walk IH]; [done|].
  rewrite fmap_cons, not_elem_of_cons. intros [Hne Hrest]. cbn [flat_map].
  rewrite detail_other by (cbn in Hne; congruence).
  by rewrite IH.
Qed.

Lemma flat_map_detail_nodup walk :
  NoDup walk.*1 →
  flat_map detail walk = details_of (list_to_map walk).
Proof.
  unfold details_of.
  induction walk as [|[errorType evaluationError] walk IH]; [done|].
  rewrite fmap_cons, NoDup_cons. intros [Hfresh Hnodup].
  cbn [flat_map list_to_map foldr uncurry fst] in *.
  destruct (decide (errorType = "properties")) as [->|Hne].
  - rewrite detail_properties, lookup_insert_eq.
    rewrite flat_map_detail_absent by done. apply app_nil_r.
  - rewrite detail_other, lookup_insert_ne by done. by apply IH.
Qed.

Lemma failure_view_walk walk errors :
  walk ≡ₚ map_to_list errors →
  failure_view walk = failure_header ++ details_of errors.
Proof.
  intros Hperm. unfold failure_view. f_equal.
  assert (NoDup walk.*1) as Hnodup.
  { rewrite Hperm. apply NoDup_fst_map_to_list. }
  rewrite flat_map_detail_nodup by done.
  f_equal. rewrite <-(list_to_map_to_list errors).
  by apply list_to_map_proper.
Qed.
End error_walk.

(** The report of an image, read off the validation result. *)
Lemma process_walk_eq walk image schema :
  walk ≡ₚ map_to_list (Errors (Validate schema (Properties image))) →
  process_walk walk image schema =
    header image ++
    match classify schema (Properties image) with
    | NonConforming =>
        failure_header ++ details_of (Errors (Validate schema (Properties image)))
    | Conforming => fields_view image
    end.
Proof.
  intros Hperm. unfold process_walk, classify.
  destruct (negb _); [|done]. by rewrite (failure_view_walk _ _ Hperm).
Qed.

Lemma process_eq image schema :
  process image schema =
    header image ++
    match classify schema (Properties image) with
    | NonConforming =>
        failure_header ++ details_of (Errors (Validate schema (Properties image)))
    | Conforming => fields_view image
    end.
Proof. by apply process_walk_eq. Qed.

Lemma process_prints_process image schema out :
  process_prints image schema out ↔ out = process image schema.
Proof.
  split.
  - intros (walk & Hperm & ->). by rewrite process_eq, process_walk_eq.
  - intros ->. by exists (map_to_list (Errors (Validate schema (Properties image)))).
Qed.

(** ** Facts about the validator *)

Section validator.
Context (s : ObjectSchema).
Implicit Types (bag : gmap string any) (keys : list string).

Lemma report_under_empty keyword keys (errors : gmap string EvaluationError) :
  report_under keyword keys errors = ∅ ↔ keys = [] ∧ errors = ∅.
Proof.
  destruct keys as [|k keys]; cbn; [tauto|].
  split; [|intros [? _]; done].
  intros Hempty. by apply insert_non_empty in Hempty.
Qed.

Lemma Valid_Compile bag :
  Valid (Validate (Compile s) bag) = true ↔
  offending s bag = [] ∧ missing s bag = [].
Proof.
  cbn. rewrite bool_decide_eq_true, !report_under_empty. tauto.
Qed.

Lemma classify_Compile_Conforming bag :
  classify (Compile s) bag = Conforming ↔
  offending s bag = [] ∧ missing s bag = [].
Proof.
  rewrite <-Valid_Compile. unfold classify.
  destruct (Valid _); cbn; split; congruence.
Qed.

Lemma classify_Compile_NonConforming bag :
  classify (Compile s) bag = NonConforming ↔
  offending s bag ≠ [] ∨ missing s bag ≠ [].
Proof.
  pose proof (classify_Compile_Conforming bag) as [Hnil Hconf].
  destruct (classify _ _).
  - destruct (Hnil eq_refl) as [-> ->]. split; [done|]. by intros [?|?].
  - split; [|done]. intros _.
    destruct (offending s bag); [|by left].
    destruct (missing s bag); [|by right].
    by specialize (Hconf (conj eq_refl eq_refl)).
Qed.

Lemma Errors_Compile_properties bag :
  Errors (Validate (Compile s) bag) !! "properties" =
    match offending s bag with
    | [] => None
    | keys => Some (violation keys)
    end.
Proof.
  cbn. destruct (offending s bag) as [|k keys]; cbn.
  - destruct (missing s bag); cbn; [done|].
    by rewrite lookup_insert_ne.
  - by rewrite lookup_insert_eq.
Qed.


Lemma params_lines_violation keys :
  keys ≠ [] →
  params_lines (violation keys) =
    [Println [OStr "    properties:"; OAny (key_list keys)]].
Proof. destruct keys as [|k1 [|k2 keys]]; done. Qed.

Lemma details_of_Compile bag :
  details_of (Errors (Validate (Compile s) bag)) =
    match offending s bag with
    | [] => []
    | keys =>
        [ Println [OStr "  - message: Object properties failed validation or do not exist"];
          Println [OStr "    properties:"; OAny (key_list keys)] ]
    end.
Proof.
  unfold details_of. rewrite Errors_Compile_properties.
  destruct (offending s bag) as [|k keys] eqn:Hkeys; [done|].
  unfold properties_case. by rewrite params_lines_violation.
Qed.

Lemma elem_of_missing bag k :
  k ∈ missing s bag ↔ k ∈ required s ∧ bag !! k = None.
Proof. unfold missing. rewrite list_elem_of_filter. tauto. Qed.

Lemma elem_of_offending bag k :
  k ∈ offending s bag ↔
  ∃ p, (k, p) ∈ properties s ∧
       match bag !! k with
       | Some v => satisfies p v = false
       | None => k ∈ required s
       end.
Proof.
  unfold offending. rewrite list_elem_of_fmap. split.
  - intros ([k' p] & -> & Hin). apply list_elem_of_filter in Hin as [Hoff Hin].
    exists p. split; [done|]. unfold offends in Hoff. cbn in *.
    destruct (bag !! k') as [v|].
    + by apply negb_true_iff.
    + by apply bool_decide_eq_true in Hoff.
  - intros (p & Hin & Hoff). exists (k, p). split; [done|].
    apply list_elem_of_filter. split; [|done]. unfold offends. cbn.
    destruct (bag !! k) as [v|].
    + by apply negb_true_iff.
    + by apply bool_decide_eq_true.
Qed.

Lemma missing_nil bag :
  missing s bag = [] ↔ ∀ k, k ∈ required s → is_Some (bag !! k).
Proof.
  split.
  - intros Hnil k Hk. destruct (bag !! k) as [v|] eqn:Hlook; [by eexists|].
    assert (k ∈ missing s bag) as Hin by by apply elem_of_missing.
    rewrite Hnil in Hin. by apply elem_of_nil in Hin.
  - intros Hall. destruct (missing s bag) as [|k keys] eqn:Hm; [done|].
    assert (k ∈ missing s bag) as Hin by (rewrite Hm; left).
    apply elem_of_missing in Hin as [Hreq Hnone].
    destruct (Hall k Hreq) as [v Hv]. congruence.
Qed.
End validator.

(** ** The identity header *)

Lemma sizeGiB_div image : sizeGiB image = SizeBytes image `div` 2 ^ 30.
Proof. unfold sizeGiB. by rewrite Z.shiftr_div_pow2. Qed.

(** C5: the fifth line of every report is "sizeGiB:" followed by the size in
    bytes shifted right by 30, which is the size divided by 2^30 and rounded
    down, never up: 3,221,225,472 bytes and 3,400,000,000 bytes both report 3. *)
Theorem sizeGiB_reported walk image schema :
  process_walk walk image schema !! 4%nat =
    Some (Println [OStr "sizeGiB:"; OInt (Z.shiftr (SizeBytes image) 30)])
  ∧ sizeGiB image = SizeBytes image `div` 2 ^ 30
  ∧ 2 ^ 30 * sizeGiB image ≤ SizeBytes image < 2 ^ 30 * (sizeGiB image + 1)
  ∧ sizeGiB (image_of 3221225472 (Properties image)) = 3
  ∧ sizeGiB (image_of 3400000000 (Properties image)) = 3.
Proof.
  repeat split; try done.
  - apply sizeGiB_div.
  - rewrite sizeGiB_div. apply Z.mul_div_le. lia.
  - rewrite sizeGiB_div.
    pose proof (Z.mul_succ_div_gt (SizeBytes image) (2 ^ 30)). lia.
Qed.

(** ** The failure view *)

(** C10: in a failure report, after the identity header come the four fixed
    lines ending in "detail:", and then only what the entry under
    "properties" gives: the category message and one line per parameter
    "property" and "properties" it holds. Entries under any other category
    add nothing. *)
Theorem only_properties_detailed image schema out :
  process_prints image schema out →
  classify schema (Properties image) = NonConforming →
  out =
    header image ++ failure_header ++
    match Errors (Validate schema (Properties image)) !! "properties" with
    | Some evaluationError =>
        Println [OStr "  - message: Object properties failed validation or do not exist"]
        :: match Params evaluationError !! "property" with
           | Some v => [Println [OStr "    properties:"; OAny v]]
           | None => []
           end
        ++ match Params evaluationError !! "properties" with
           | Some v => [Println [OStr "    properties:"; OAny v]]
           | None => []
           end
    | None => []
    end.
Proof.
  intros Hout Hclass. apply process_prints_process in Hout as ->.
  rewrite process_eq, Hclass. unfold details_of.
  destruct (_ !! "properties") as [evaluationError|]; [|done].
  unfold properties_case, params_lines. cbn [flat_map].
  by rewrite app_nil_r.
Qed.

Lemma only_properties_detailed_witness :
  process_prints (image_of 0 bag_kernel_only) schema_v2
    (process (image_of 0 bag_kernel_only) schema_v2)
  ∧ classify schema_v2 bag_kernel_only = NonConforming
  ∧ process (image_of 0 bag_kernel_only) schema_v2 =
      header (image_of 0 bag_kernel_only) ++ failure_header ++
      defect_lines [ "unikorn:os:family"; "unikorn:os:distro";
                     "unikorn:os:version"; "unikorn:virtualization" ].
Proof.
  assert (process_prints (image_of 0 bag_kernel_only) schema_v2
            (process (image_of 0 bag_kernel_only) schema_v2)) as Hrun.
  { eexists. split; reflexivity. }
  assert (classify schema_v2 bag_kernel_only = NonConforming) as Hclass.
  { vm_compute. reflexivity. }
  split; [exact Hrun|]. split; [exact Hclass|].
  rewrite (only_properties_detailed _ _ _ Hrun Hclass).
  vm_compute. reflexivity.
Defined.

(** A validator that reports under other categories only: no detail line. *)
Example other_categories_silent bag :
  process (image_of 0 bag)
    {| Validate _ :=
         {| Valid := false;
            Errors := <[ "required" := violation ["unikorn:os:family"] ]>
                      {[ "type" := violation [] ]} |} |}
  = header (image_of 0 bag) ++ failure_header.
Proof. by rewrite process_eq. Qed.

(** ** Determinism *)

(** Given the answer of the validator, the report is fixed: whatever order
    the loop over the error categories visits them in, [process] prints the
    same lines. *)
Lemma process_deterministic image schema out1 out2 :
  process_prints image schema out1 →
  process_prints image schema out2 →
  out1 = out2
  ∧ out1 = report schema image.
Proof.
  intros H1 H2. apply process_prints_process in H1 as ->.
  apply process_prints_process in H2 as ->.
  split; [done|]. apply process_eq.
Qed.

Lemma process_deterministic_witness :
  let image := image_of 0 bag_kernel_only in
  let errors := Errors (Validate schema_v2 bag_kernel_only) in
  process_prints image schema_v2 (process_walk (map_to_list errors) image schema_v2)
  ∧ process_prints image schema_v2 (process_walk (reverse (map_to_list errors)) image schema_v2)
  ∧ reverse (map_to_list errors) ≠ map_to_list errors
  ∧ process_walk (map_to_list errors) image schema_v2
    = process_walk (reverse (map_to_list errors)) image schema_v2.
Proof.
  intros image errors.
  assert (process_prints image schema_v2
            (process_walk (map_to_list errors) image schema_v2)) as H1.
  { eexists. split; reflexivity. }
  assert (process_prints image schema_v2
            (process_walk (reverse (map_to_list errors)) image schema_v2)) as H2.
  { eexists. split; [apply reverse_Permutation | reflexivity]. }
  split; [exact H1|]. split; [exact H2|]. split.
  - vm_compute. discriminate.
  - exact (proj1 (process_deterministic _ _ _ _ H1 H2)).
Defined.

(** ** The eligibility filter and the loop of [main] *)

Lemma run_eq schema images stdout :
  run schema images stdout =
    stdout ++ concat (map (λ image, process image schema) images).
Proof.
  revert stdout.
  induction images as [|image images IH]; intros stdout; cbn [run map concat].
  - by rewrite app_nil_r.
  - rewrite IH. symmetry. apply app_assoc.
Qed.

Lemma main_output_eq schema result :
  main_output schema result =
    concat (map (λ image, process image schema) (eligible result)).
Proof. unfold main_output. by rewrite run_eq. Qed.

Lemma eligible_app before after :
  eligible (before ++ after) = eligible before ++ eligible after.
Proof. apply filter_app. Qed.

Lemma eligible_cons image images :
  eligible (image :: images) =
    (if in_scope image then [image] else []) ++ eligible images.
Proof.
  unfold eligible. rewrite filter_cons.
  destruct (in_scope image); by rewrite ?decide_True, ?decide_False by done.
Qed.

Lemma main_output_app schema before after :
  main_output schema (before ++ after) =
    main_output schema before ++ main_output schema after.
Proof.
  by rewrite !main_output_eq, eligible_app, map_app, concat_app.
Qed.

Lemma in_scope_spec image :
  in_scope image = true ↔
  ∃ k, k ∈ dom (Properties image) ∧ String.prefix "unikorn:" k = true.
Proof.
  unfold in_scope. rewrite existsb_exists. split.
  - intros (k & Hin & Hprefix). exists k. split; [|done].
    apply list_elem_of_In, list_elem_of_fmap in Hin as ([k' v] & -> & Hin).
    apply elem_of_map_to_list in Hin. apply elem_of_dom. by eexists.
  - intros (k & Hdom & Hprefix). exists k. split; [|done].
    apply elem_of_dom in Hdom as [v Hv].
    apply list_elem_of_In, list_elem_of_fmap. exists (k, v). split; [done|].
    by apply elem_of_map_to_list.
Qed.

(** C4: an image is in scope exactly when some key of its bag starts with
    "unikorn:". An image out of scope is dropped before the loop and adds
    nothing to the output, wherever it stands in the listing; an image in
    scope adds its report, in place. *)
Theorem out_of_scope_skipped schema before image after :
  (in_scope image = true ↔
     ∃ k, k ∈ dom (Properties image) ∧ String.prefix "unikorn:" k = true)
  ∧ main_output schema (before ++ image :: after) =
      main_output schema before
      ++ (if in_scope image then process image schema else [])
      ++ main_output schema after.
Proof.
  split; [apply in_scope_spec|].
  rewrite main_output_app. f_equal.
  rewrite !main_output_eq, eligible_cons, map_app, concat_app. f_equal.
  destruct (in_scope image); cbn [map concat]; [apply app_nil_r | done].
Qed.

Example foreign_image_skipped :
  in_scope (image_of 0 bag_foreign) = false
  ∧ main_output schema_v2
      [image_of 1 bag_minimal; image_of 0 bag_foreign; image_of 2 bag_kernel_only]
    = process (image_of 1 bag_minimal) schema_v2
      ++ process (image_of 2 bag_kernel_only) schema_v2.
Proof. split; vm_compute; reflexivity. Qed.

(** C9: the loop never stops early. Every image in scope gets one report,
    made of its identity header and one of the two views, and the reports
    follow each other in the order of the listing, whatever the outcomes of
    the images before. *)
Theorem loop_reports_every_image schema result stdout :
  run schema result stdout = stdout ++ concat (map (report schema) result)
  ∧ main_output schema result = concat (map (report schema) (eligible result)).
Proof.
  split.
  - rewrite run_eq. do 2 f_equal. apply map_ext. intros image. apply process_eq.
  - rewrite main_output_eq. f_equal. apply map_ext. intros image. apply process_eq.
Qed.

Example loop_goes_on_after_failure :
  classify schema_v2 bag_kernel_only = NonConforming
  ∧ classify schema_v2 bag_windows = NonConforming
  ∧ main_output schema_v2
      [image_of 2 bag_kernel_only; image_of 3 bag_windows; image_of 1 bag_minimal]
    = report schema_v2 (image_of 2 bag_kernel_only)
      ++ report schema_v2 (image_of 3 bag_windows)
      ++ header (image_of 1 bag_minimal) ++ fields_view (image_of 1 bag_minimal).
Proof. repeat split; vm_compute; reflexivity. Qed.

(** ** Schema v2 against the validator *)

Lemma filter_ext_elem {A} (P Q : A → Prop)
    `{!∀ x, Decision (P x)} `{!∀ x, Decision (Q x)} (l : list A) :
  (∀ x, x ∈ l → P x ↔ Q x) → filter P l = filter Q l.
Proof.
  induction l as [|x l IH]; intros Hext; [done|].
  rewrite !filter_cons, IH by (intros y Hy; apply Hext; by right).
  destruct (decide (P x)) as [HP|HP], (decide (Q x)) as [HQ|HQ]; try done.
  - destruct HQ. apply Hext; [left|done].
  - destruct HP. apply Hext; [left|done].
Qed.

Section offending_keys.
Context (s : ObjectSchema).
Implicit Types (bag : gmap string any).

Lemma present_validb_true bag :
  present_validb s bag = true → present_valid s bag.
Proof.
  unfold present_validb. rewrite forallb_forall. intros Hall k p v Hin Hlook.
  apply list_elem_of_In in Hin. specialize (Hall _ Hin). cbn in Hall.
  by rewrite Hlook in Hall.
Qed.

Lemma offends_present bag k p v :
  bag !! k = Some v → offends s bag (k, p) = negb (satisfies p v).
Proof. intros Hlook. unfold offends. cbn. by rewrite Hlook. Qed.

Lemma offends_absent bag k p :
  bag !! k = None → offends s bag (k, p) = bool_decide (k ∈ required s).
Proof. intros Hlook. unfold offends. cbn. by rewrite Hlook. Qed.

(** With every present value valid, the offending keys are the missing
    required ones, in the order the schema declares them. *)
Lemma offending_present_valid bag :
  present_valid s bag →
  offending s bag =
    filter (λ k, bag !! k = None) (filter (λ k, k ∈ required s) (declared s)).
Proof.
  unfold present_valid, offending, declared.
  induction (properties s) as [|[k p] entries IH]; intros Hvalid; [done|].
  assert (∀ k p v, (k, p) ∈ entries → bag !! k = Some v → satisfies p v = true)
    as Hrest by (intros ??? Hin; apply Hvalid; by right).
  specialize (IH Hrest). rewrite fmap_cons. cbn [fst].
  destruct (bag !! k) as [v|] eqn:Hlook.
  - rewrite filter_cons_False; cycle 1.
    { rewrite (offends_present _ _ _ _ Hlook), (Hvalid k p v) by (done || left).
      done. }
    rewrite IH. destruct (decide (k ∈ required s)).
    + rewrite (filter_cons_True (λ k, k ∈ required s)) by done.
      rewrite filter_cons_False by congruence. done.
    + by rewrite (filter_cons_False (λ k, k ∈ required s)) by done.
  - destruct (decide (k ∈ required s)) as [Hreq|Hreq].
    + rewrite filter_cons_True; cycle 1.
      { rewrite (offends_absent _ _ _ Hlook). by apply bool_decide_eq_true. }
      rewrite (filter_cons_True (λ k, k ∈ required s)) by done.
      rewrite filter_cons_True by done. rewrite fmap_cons. by f_equal.
    + rewrite filter_cons_False; cycle 1.
      { rewrite (offends_absent _ _ _ Hlook). rewrite bool_decide_eq_false_2; done. }
      by rewrite (filter_cons_False (λ k, k ∈ required s)) by done.
Qed.

(** A key the schema does not declare has no say in the result. *)
Lemma offending_insert_undeclared bag k v :
  k ∉ declared s → offending s (<[k := v]> bag) = offending s bag.
Proof.
  intros Hk. unfold offending. f_equal. apply filter_ext_elem.
  intros [k' p] Hin. unfold offends. cbn [fst snd].
  rewrite lookup_insert_ne; [done|]. intros ->. apply Hk.
  unfold declared. apply list_elem_of_fmap. by exists (k', p).
Qed.

Lemma missing_insert_unrequired bag k v :
  k ∉ required s → missing s (<[k := v]> bag) = missing s bag.
Proof.
  intros Hk. unfold missing. apply filter_ext_elem. intros k' Hin.
  rewrite lookup_insert_ne; [done|]. by intros ->.
Qed.

Lemma Validate_insert_undeclared bag k v :
  k ∉ declared s → k ∉ required s →
  Validate (Compile s) (<[k := v]> bag) = Validate (Compile s) bag.
Proof.
  intros Hdecl Hreq. cbn.
  by rewrite offending_insert_undeclared, missing_insert_unrequired.
Qed.

(** A present value outside the enumeration of its key offends. *)
Lemma outside_enum_offends bag k p values v :
  (k, p) ∈ properties s → enum p = Some values → bag !! k = Some v →
  (∀ x, v = Str x → x ∉ values) →
  k ∈ offending s bag.
Proof.
  intros Hin Henum Hlook Hout. apply elem_of_offending. exists p.
  split; [done|]. rewrite Hlook. unfold satisfies, in_enum. rewrite Henum.
  apply andb_false_iff. right. destruct v as [|x| | | |]; try done.
  apply bool_decide_eq_false. by apply Hout.
Qed.

Lemma offending_NonConforming bag k :
  k ∈ offending s bag → classify (Compile s) bag = NonConforming.
Proof.
  intros Hin. apply classify_Compile_NonConforming. left.
  intros Hnil. rewrite Hnil in Hin. by apply elem_of_nil in Hin.
Qed.


End offending_keys.

(** ** Schema v2 *)

Lemma required_in_declared_order :
  filter (λ k, k ∈ required schemav2) (declared schemav2) = required schemav2.
Proof. vm_compute. reflexivity. Qed.

Lemma required_declared k :
  k ∈ required schemav2 → ∃ p, (k, p) ∈ properties schemav2.
Proof.
  intros Hk. assert (k ∈ declared schemav2) as Hdecl.
  { rewrite <-required_in_declared_order in Hk.
    by apply list_elem_of_filter in Hk as [_ ?]. }
  apply list_elem_of_fmap in Hdecl as ([k' p] & -> & Hin). by exists p.
Qed.

Lemma undeclared_unrequired k :
  k ∉ declared schemav2 → k ∉ required schemav2.
Proof.
  intros Hk Hreq. apply Hk. destruct (required_declared k Hreq) as [p Hin].
  apply list_elem_of_fmap. by exists (k, p).
Qed.

Lemma offending_v2_present_valid bag :
  present_valid schemav2 bag → offending schemav2 bag = missing schemav2 bag.
Proof.
  intros Hvalid. rewrite offending_present_valid by done.
  by rewrite required_in_declared_order.
Qed.





(** ** The conforming view *)

Lemma index_lookup (bag : gmap string any) key :
  match bag !! key with
  | Some w => index bag key = w
  | None => index bag key = Nil
  end.
Proof. unfold index. by destruct (bag !! key). Qed.

(** Every member of the table has its line in the view. *)
Lemma fields_view_member image label key :
  (label, key) ∈ field_table →
  Println [OStr label; OAny (index (Properties image) key)] ∈ fields_view image.
Proof.
  intros Hin. apply list_elem_of_In.
  unfold field_table in Hin.
  repeat (apply elem_of_cons in Hin as [[= -> ->]|Hin]; [cbn; tauto|]).
  by apply elem_of_nil in Hin.
Qed.

(** C2: when every required key is present and every present declared key
    satisfies its constraint, the image is Conforming and its report is the
    identity header followed by the view of the fields. The view has one
    line for each of the thirteen declared keys; the value on the line is
    the value the bag holds for the key, unchanged, and is nil when the bag
    does not hold the key. *)
Theorem conforming_fields_verbatim image out :
  required_present schemav2 (Properties image) →
  present_valid schemav2 (Properties image) →
  process_prints image schema_v2 out →
  classify schema_v2 (Properties image) = Conforming
  ∧ out = header image ++ fields_view image
  ∧ field_table.*2 = declared schemav2
  ∧ ∀ label key, (label, key) ∈ field_table →
      ∃ v, Println [OStr label; OAny v] ∈ out
           ∧ match Properties image !! key with
             | Some w => v = w
             | None => v = Nil
             end.
Proof.
  intros Hreq Hvalid Hout. apply process_prints_process in Hout as ->.
  assert (classify schema_v2 (Properties image) = Conforming) as Hclass.
  { apply classify_Compile_Conforming.
    rewrite offending_v2_present_valid by done.
    split; by apply missing_nil. }
  rewrite process_eq, Hclass. split; [done|]. split; [done|]. split; [done|].
  intros label key Hin. exists (index (Properties image) key). split.
  - apply elem_of_app. right. by apply fields_view_member.
  - apply index_lookup.
Qed.

(** The scenario of the bag that holds the five required keys only. *)
Lemma conforming_fields_verbatim_witness :
  required_present schemav2 (Properties (image_of 0 bag_minimal))
  ∧ present_valid schemav2 (Properties (image_of 0 bag_minimal))
  ∧ process_prints (image_of 0 bag_minimal) schema_v2
      (process (image_of 0 bag_minimal) schema_v2)
  ∧ classify schema_v2 bag_minimal = Conforming
  ∧ process (image_of 0 bag_minimal) schema_v2 =
      header (image_of 0 bag_minimal) ++
      [ Println [OStr "os:"];
        Println [OStr "  kernel:"; OAny (Str "linux")];
        Println [OStr "  family:"; OAny (Str "debian")];
        Println [OStr "  distro:"; OAny (Str "ubuntu")];
        Println [OStr "  variant:"; OAny Nil];
        Println [OStr "  codename:"; OAny Nil];
        Println [OStr "  version:"; OAny (Str "22.04")];
        Println [OStr "package:"];
        Println [OStr "  kubernetes:"; OAny Nil];
        Println [OStr "  slurmd:"; OAny Nil];
        Println [OStr "gpu:"];
        Println [OStr "  vendor:"; OAny Nil];
        Println [OStr "  models:"; OAny Nil];
        Println [OStr "  driver:"; OAny Nil];
        Println [OStr "virtualization:"; OAny (Str "any")];
        Println [OStr "digest:"; OAny Nil] ].
Proof.
  assert (required_present schemav2 (Properties (image_of 0 bag_minimal))) as Hreq.
  { refine (proj1 (missing_nil schemav2 _) _). vm_compute. reflexivity. }
  assert (present_valid schemav2 (Properties (image_of 0 bag_minimal))) as Hvalid.
  { apply present_validb_true. vm_compute. reflexivity. }
  assert (process_prints (image_of 0 bag_minimal) schema_v2
            (process (image_of 0 bag_minimal) schema_v2)) as Hrun.
  { eexists. split; reflexivity. }
  destruct (conforming_fields_verbatim _ _ Hreq Hvalid Hrun) as (Hclass & Hout & _).
  split; [exact Hreq|]. split; [exact Hvalid|]. split; [exact Hrun|].
  split; [exact Hclass|]. rewrite Hout. vm_compute. reflexivity.
Defined.

(** ** Enumerations *)

(** C3: a bag that holds a declared key with a value outside the closed
    enumeration of the key is NonConforming, whatever else it holds. *)
Theorem enumeration_enforced bag k p values v :
  (k, p) ∈ properties schemav2 →
  enum p = Some values →
  bag !! k = Some v →
  (∀ x, v = Str x → x ∉ values) →
  classify schema_v2 bag = NonConforming.
Proof.
  intros Hin Henum Hlook Hout.
  apply (offending_NonConforming schemav2 bag k).
  by eapply outside_enum_offends.
Qed.

(** The kernel "windows", every other required key present and valid. *)
Lemma enumeration_enforced_witness :
  ("unikorn:os:kernel", one_of ["linux"]) ∈ properties schemav2
  ∧ bag_windows !! "unikorn:os:kernel" = Some (Str "windows")
  ∧ missing schemav2 bag_windows = []
  ∧ offending schemav2 bag_windows = ["unikorn:os:kernel"]
  ∧ classify schema_v2 bag_windows = NonConforming.
Proof.
  assert (("unikorn:os:kernel", one_of ["linux"]) ∈ properties schemav2) as Hin.
  { left. }
  assert (bag_windows !! "unikorn:os:kernel" = Some (Str "windows")) as Hlook.
  { vm_compute. reflexivity. }
  assert (∀ x, Str "windows" = Str x → x ∉ ["linux"]) as Hout.
  { intros x [= <-]. vm_compute. intros H. inversion H as [|? ? ? H']; inversion H'. }
  split; [exact Hin|]. split; [exact Hlook|].
  split; [vm_compute; reflexivity|]. split; [vm_compute; reflexivity|].
  exact (enumeration_enforced bag_windows _ _ _ _ Hin eq_refl Hlook Hout).
Defined.




(** ** Keys the schema does not declare *)

(** C8: schema v2 declares thirteen keys. Adding any other key, with any
    value, to a bag changes nothing in the result of the validation: the
    outcome is the same, so a Conforming bag stays Conforming. *)
Theorem unrecognized_keys_ignored bag k v :
  k ∉ declared schemav2 →
  length (declared schemav2) = 13%nat
  ∧ Validate schema_v2 (<[k := v]> bag) = Validate schema_v2 bag
  ∧ classify schema_v2 (<[k := v]> bag) = classify schema_v2 bag
  ∧ (classify schema_v2 bag = Conforming →
     classify schema_v2 (<[k := v]> bag) = Conforming).
Proof.
  intros Hk.
  assert (Validate schema_v2 (<[k := v]> bag) = Validate schema_v2 bag) as Heq.
  { apply Validate_insert_undeclared; [done|]. by apply undeclared_unrequired. }
  split; [done|]. split; [done|]. unfold classify. rewrite Heq. by split.
Qed.

Lemma unrecognized_keys_ignored_witness :
  ("os_distro" ∉ declared schemav2)
  ∧ classify schema_v2 bag_minimal = Conforming
  ∧ classify schema_v2 (<[ "os_distro" := Bool true ]> bag_minimal) = Conforming.
Proof.
  assert ("os_distro" ∉ declared schemav2) as Hk.
  { by_evaluation. }
  assert (classify schema_v2 bag_minimal = Conforming) as Hclass.
  { vm_compute. reflexivity. }
  split; [exact Hk|]. split; [exact Hclass|].
  exact (proj2 (proj2 (proj2 (unrecognized_keys_ignored bag_minimal _ (Bool true) Hk))) Hclass).
Defined.

(** ** Two runs on the same image *)

Section validator_runs.
Context (s : ObjectSchema).
Implicit Types (bag : gmap string any) (order : list (string * PropertySchema)).

Lemma offending_visiting bag order :
  order ≡ₚ properties s →
  offending (visiting s order) bag ≡ₚ offending s bag.
Proof.
  intros Hperm. unfold offending.
  change (properties (visiting s order)) with order.
  change (λ entry, offends (visiting s order) bag entry = true)
    with (λ entry, offends s bag entry = true).
  by rewrite Hperm.
Qed.

Lemma missing_visiting bag order :
  missing (visiting s order) bag = missing s bag.
Proof. done. Qed.

Lemma classify_visiting bag order :
  order ≡ₚ properties s →
  classify (Compile (visiting s order)) bag = classify (Compile s) bag.
Proof.
  intros Hperm. pose proof (offending_visiting bag _ Hperm) as Hoff.
  destruct (classify (Compile s) bag) eqn:Hclass.
  - apply classify_Compile_Conforming in Hclass as [Hnil Hmiss].
    apply classify_Compile_Conforming. rewrite missing_visiting.
    split; [|done]. rewrite Hnil in Hoff. by apply Permutation_nil_r in Hoff.
  - apply classify_Compile_NonConforming in Hclass as [Hcons|Hmiss];
      apply classify_Compile_NonConforming; [left|by right].
    intros Hnil. rewrite Hnil in Hoff. symmetry in Hoff.
    by apply Permutation_nil_r in Hoff.
Qed.

Lemma audit_prints_report image order out :
  order ≡ₚ properties s →
  process_prints image (Compile (visiting s order)) out →
  out = audit_report s image (offending (visiting s order) (Properties image)).
Proof.
  intros Hperm Hout. apply process_prints_process in Hout as ->.
  rewrite process_eq, details_of_Compile, classify_visiting by done.
  unfold audit_report. by destruct (offending (visiting s order) _).
Qed.
End validator_runs.

(** C6: the outcome of a classification is fixed by the bag and the schema:
    two runs give the same outcome. What they print is fixed up to the
    order of the keys in the key list of the defect: both reports are the
    report of the image with the offending keys listed in some order, the
    same keys in both. The reports of a Conforming image are the same. *)
Theorem outcome_fixed_keys_in_any_order s image out1 out2 :
  audit_prints s image out1 →
  audit_prints s image out2 →
  (∀ o1 o2, audit_outcome s (Properties image) o1 →
            audit_outcome s (Properties image) o2 → o1 = o2)
  ∧ (∃ keys1 keys2,
       keys1 ≡ₚ offending s (Properties image)
       ∧ keys2 ≡ₚ offending s (Properties image)
       ∧ out1 = audit_report s image keys1
       ∧ out2 = audit_report s image keys2)
  ∧ (classify (Compile s) (Properties image) = Conforming → out1 = out2).
Proof.
  intros (order1 & Hperm1 & Hout1) (order2 & Hperm2 & Hout2).
  apply audit_prints_report in Hout1; [|done].
  apply audit_prints_report in Hout2; [|done].
  split; [|split].
  - intros o1 o2 (order & Hperm & <-) (order' & Hperm' & <-).
    by rewrite !classify_visiting.
  - exists (offending (visiting s order1) (Properties image)),
           (offending (visiting s order2) (Properties image)).
    split; [by apply offending_visiting|]. split; [by apply offending_visiting|].
    done.
  - intros Hclass. subst out1 out2. unfold audit_report. by rewrite Hclass.
Qed.

Lemma outcome_fixed_keys_in_any_order_witness :
  audit_prints schemav2 (image_of 0 bag_kernel_only)
    (audit_report schemav2 (image_of 0 bag_kernel_only)
       [ "unikorn:os:family"; "unikorn:os:distro";
         "unikorn:os:version"; "unikorn:virtualization" ])
  ∧ audit_prints schemav2 (image_of 0 bag_kernel_only)
      (audit_report schemav2 (image_of 0 bag_kernel_only)
         [ "unikorn:virtualization"; "unikorn:os:version";
           "unikorn:os:distro"; "unikorn:os:family" ])
  ∧ ∃ keys1 keys2,
      keys1 ≡ₚ offending schemav2 bag_kernel_only
      ∧ keys2 ≡ₚ offending schemav2 bag_kernel_only
      ∧ audit_report schemav2 (image_of 0 bag_kernel_only)
          [ "unikorn:os:family"; "unikorn:os:distro";
            "unikorn:os:version"; "unikorn:virtualization" ]
        = audit_report schemav2 (image_of 0 bag_kernel_only) keys1
      ∧ audit_report schemav2 (image_of 0 bag_kernel_only)
          [ "unikorn:virtualization"; "unikorn:os:version";
            "unikorn:os:distro"; "unikorn:os:family" ]
        = audit_report schemav2 (image_of 0 bag_kernel_only) keys2.
Proof.
  assert (audit_prints schemav2 (image_of 0 bag_kernel_only)
            (audit_report schemav2 (image_of 0 bag_kernel_only)
               [ "unikorn:os:family"; "unikorn:os:distro";
                 "unikorn:os:version"; "unikorn:virtualization" ])) as H1.
  { exists (properties schemav2). split; [reflexivity|].
    apply process_prints_process. vm_compute. reflexivity. }
  assert (audit_prints schemav2 (image_of 0 bag_kernel_only)
            (audit_report schemav2 (image_of 0 bag_kernel_only)
               [ "unikorn:virtualization"; "unikorn:os:version";
                 "unikorn:os:distro"; "unikorn:os:family" ])) as H2.
  { exists (reverse (properties schemav2)). split; [apply reverse_Permutation|].
    apply process_prints_process. vm_compute. reflexivity. }
  split; [exact H1|]. split; [exact H2|].
  exact (proj1 (proj2 (outcome_fixed_keys_in_any_order _ _ _ _ H1 H2))).
Defined.

(** Two runs on the same image under the same schema that do not print the
    same: the bag that holds the kernel only, with the declared properties
    visited in the order of the schema text and in the reverse order. The
    key list of the defect comes out in two orders. *)
Lemma emitted_output_varies :
  audit_prints schemav2 (image_of 0 bag_kernel_only)
    (header (image_of 0 bag_kernel_only) ++ failure_header
     ++ defect_lines [ "unikorn:os:family"; "unikorn:os:distro";
                       "unikorn:os:version"; "unikorn:virtualization" ])
  ∧ audit_prints schemav2 (image_of 0 bag_kernel_only)
      (header (image_of 0 bag_kernel_only) ++ failure_header
       ++ defect_lines [ "unikorn:virtualization"; "unikorn:os:version";
                         "unikorn:os:distro"; "unikorn:os:family" ])
  ∧ header (image_of 0 bag_kernel_only) ++ failure_header
    ++ defect_lines [ "unikorn:os:family"; "unikorn:os:distro";
                      "unikorn:os:version"; "unikorn:virtualization" ]
    ≠ header (image_of 0 bag_kernel_only) ++ failure_header
      ++ defect_lines [ "unikorn:virtualization"; "unikorn:os:version";
                        "unikorn:os:distro"; "unikorn:os:family" ].
Proof.
  split; [|split].
  - exists (properties schemav2). split; [reflexivity|].
    apply process_prints_process. vm_compute. reflexivity.
  - exists (reverse (properties schemav2)). split; [apply reverse_Permutation|].
    apply process_prints_process. vm_compute. reflexivity.
  - intros Heq. vm_compute in Heq. discriminate Heq.
Qed.

(** ** The start-up of [main] *)

(** X1: [main] leaves early exactly when one of the six calls fails, the
    calls before it having handed back a value. It then leaves with status
    1 after one call of [fmt.Println], whose one operand is the error of
    that call: no report of an image comes before it. *)
Theorem main_exit_is_error w stdout code :
  main w = Exited stdout code ↔
  code = 1 ∧ ∃ err : error, fails w err ∧ stdout = [Println [OStr err]].
Proof.
  unfold main, fails. cbn. split.
  - destruct (CompileSchema w) as [err|schema]; cbn;
      [intros [= <- <-]; eauto|].
    destruct (Parse w) as [err|[[authOptions endpointOpts] tlsConfig]]; cbn;
      [intros [= <- <-]; eauto 10|].
    destruct (NewProviderClient w authOptions tlsConfig)
      as [err|providerClient] eqn:Hprovider; cbn;
      [intros [= <- <-]; eauto 15|].
    destruct (NewImageV2 w providerClient endpointOpts)
      as [err|client] eqn:Hclient; cbn;
      [intros [= <- <-]; eauto 20|].
    destruct (AllPages w client _) as [err|page] eqn:Hpage; cbn;
      [intros [= <- <-]; eauto 25|].
    destruct (ExtractImages w page) as [err|result] eqn:Hresult; cbn;
      [intros [= <- <-]|discriminate].
    split; [done|]. exists err. split; [|done].
    right. exists schema. split; [done|]. right.
    exists authOptions, endpointOpts, tlsConfig. split; [done|]. right.
    exists providerClient. split; [done|]. right.
    exists client. split; [done|]. right. by exists page.
  - intros [-> (err & Hfails & ->)].
    destruct Hfails as [->|(schema & -> & Hfails)]; [done|]. cbn.
    destruct Hfails
      as [->|(authOptions & endpointOpts & tlsConfig & -> & Hfails)]; [done|].
    cbn. destruct Hfails as [->|(providerClient & -> & Hfails)]; [done|].
    cbn. destruct Hfails as [->|(client & -> & Hfails)]; [done|].
    cbn. destruct Hfails as [->|(page & -> & Hextract)]; [done|].
    cbn. by rewrite Hextract.
Qed.

Lemma main_exit_is_error_witness :
  main (cloud_unreachable schema_v2 "connection refused")
    = Exited [Println [OStr "connection refused"]] 1
  ∧ 1 = 1
  ∧ ∃ err : error,
      fails (cloud_unreachable schema_v2 "connection refused") err
      ∧ [Println [OStr "connection refused"]] = [Println [OStr err]].
Proof.
  assert (main (cloud_unreachable schema_v2 "connection refused")
            = Exited [Println [OStr "connection refused"]] 1) as Hmain.
  { reflexivity. }
  split; [exact Hmain|]. exact (proj1 (main_exit_is_error _ _ _) Hmain).
Defined.

(** X2: [main] reaches its end exactly when each of the six calls hands
    back a value, each fed with the values of the calls before and the
    listing asked for with public visibility; what it has printed then is
    the reports of the images in scope, under the compiled schema. *)
Theorem main_completes_iff w stdout :
  main w = Continue stdout ↔
  ∃ schema authOptions endpointOpts tlsConfig providerClient client page result,
    CompileSchema w = inr schema
    ∧ Parse w = inr (authOptions, endpointOpts, tlsConfig)
    ∧ NewProviderClient w authOptions tlsConfig = inr providerClient
    ∧ NewImageV2 w providerClient endpointOpts = inr client
    ∧ AllPages w client {| Visibility := ImageVisibilityPublic |} = inr page
    ∧ ExtractImages w page = inr result
    ∧ stdout = main_output schema result.
Proof.
  unfold main. cbn. split.
  - destruct (CompileSchema w) as [err|schema]; cbn; [discriminate|].
    destruct (Parse w) as [err|[[authOptions endpointOpts] tlsConfig]]; cbn;
      [discriminate|].
    destruct (NewProviderClient w authOptions tlsConfig)
      as [err|providerClient] eqn:Hprovider; cbn; [discriminate|].
    destruct (NewImageV2 w providerClient endpointOpts)
      as [err|client] eqn:Hclient; cbn; [discriminate|].
    destruct (AllPages w client _) as [err|page] eqn:Hpage; cbn; [discriminate|].
    destruct (ExtractImages w page) as [err|result] eqn:Hresult; cbn;
      [discriminate|].
    intros [= <-].
    by exists schema, authOptions, endpointOpts, tlsConfig, providerClient,
      client, page, result.
  - intros (schema & authOptions & endpointOpts & tlsConfig & providerClient
            & client & page & result & -> & -> & H3 & H4 & H5 & H6 & ->).
    cbn. rewrite H3. cbn. rewrite H4. cbn. rewrite H5. cbn. rewrite H6. done.
Qed.

Lemma main_completes_iff_witness :
  main cloud_sample = Continue (process (image_of 1 bag_minimal) schema_v2)
  ∧ ∃ schema authOptions endpointOpts tlsConfig providerClient client page result,
      CompileSchema cloud_sample = inr schema
      ∧ Parse cloud_sample = inr (authOptions, endpointOpts, tlsConfig)
      ∧ NewProviderClient cloud_sample authOptions tlsConfig = inr providerClient
      ∧ NewImageV2 cloud_sample providerClient endpointOpts = inr client
      ∧ AllPages cloud_sample client {| Visibility := ImageVisibilityPublic |}
        = inr page
      ∧ ExtractImages cloud_sample page = inr result
      ∧ process (image_of 1 bag_minimal) schema_v2 = main_output schema result.
Proof.
  assert (main cloud_sample
            = Continue (process (image_of 1 bag_minimal) schema_v2)) as Hmain.
  { vm_compute. reflexivity. }
  split; [exact Hmain|].
  exact (proj1 (main_completes_iff _ _) Hmain).
Defined.

(** ** When nothing is printed *)

Lemma eligible_nil_iff result :
  eligible result = [] ↔ ∀ image, image ∈ result → in_scope image = false.
Proof.
  induction result as [|image images IH].
  - split; [|done]. intros _ image Hin. by apply elem_of_nil in Hin.
  - rewrite eligible_cons. split.
    + intros Hnil image' Hin. destruct (in_scope image) eqn:Hscope; [done|].
      apply elem_of_cons in Hin as [->|Hin]; [done|]. by apply IH.
    + intros Hnone. rewrite (Hnone image) by left. apply IH.
      intros image' Hin. apply Hnone. by right.
Qed.

(** X6: [main] prints nothing for a listing exactly when no image of the
    listing is in scope; the empty listing is one such. *)
Theorem main_output_nil_iff schema result :
  main_output schema result = [] ↔
  ∀ image, image ∈ result → in_scope image = false.
Proof.
  rewrite <-eligible_nil_iff, main_output_eq. split.
  - destruct (eligible result) as [|image images]; [done|].
    rewrite map_cons, concat_cons, process_eq. discriminate.
  - by intros ->.
Qed.

(** ** What the conforming view reads *)

Lemma index_insert_nil (bag : gmap string any) k key :
  index (<[k := Nil]> bag) key = index (delete k bag) key.
Proof.
  unfold index. destruct (decide (k = key)) as [->|Hne].
  - by rewrite lookup_insert_eq, lookup_delete_eq.
  - by rewrite lookup_insert_ne, lookup_delete_ne.
Qed.

(** The view of the fields is read off the thirteen keys of the table. *)
Lemma fields_view_ext image1 image2 :
  (∀ key, key ∈ field_table.*2 →
          index (Properties image1) key = index (Properties image2) key) →
  fields_view image1 = fields_view image2.
Proof.
  intros Hagree. unfold fields_view, members. cbn.
  by rewrite !Hagree by (apply list_elem_of_In; cbn; tauto).
Qed.

(** X7: the view of the fields reads nothing of an image but the values its
    bag gives at the thirteen keys of the view: two images whose bags index
    to the same value at each of these keys have the same view, whatever
    their identity, their size and the other keys of their bags. *)
Theorem fields_view_reads_thirteen_keys image1 image2 :
  (∀ key, key ∈ field_table.*2 →
          index (Properties image1) key = index (Properties image2) key) →
  fields_view image1 = fields_view image2.
Proof. apply fields_view_ext. Qed.

Lemma fields_view_reads_thirteen_keys_witness :
  (∀ key, key ∈ field_table.*2 →
     index (Properties (image_of 1 bag_minimal)) key
     = index (Properties (image_of 2 (<[ "os_distro" := Str "ubuntu" ]> bag_minimal))) key)
  ∧ fields_view (image_of 1 bag_minimal)
    = fields_view (image_of 2 (<[ "os_distro" := Str "ubuntu" ]> bag_minimal)).
Proof.
  assert (∀ key, key ∈ field_table.*2 →
     index (Properties (image_of 1 bag_minimal)) key
     = index (Properties (image_of 2 (<[ "os_distro" := Str "ubuntu" ]> bag_minimal))) key)
    as Hagree.
  { intros key Hin.
    repeat (apply elem_of_cons in Hin as [->|Hin]; [vm_compute; reflexivity|]).
    by apply elem_of_nil in Hin. }
  split; [exact Hagree|].
  exact (fields_view_reads_thirteen_keys _ _ Hagree).
Defined.

(** X8: a key the bag holds with nil (a JSON null) is printed as a key the
    bag does not hold: the view of the fields cannot tell the two apart. *)
Theorem nil_value_prints_as_absent image bag k :
  fields_view (with_properties image (<[k := Nil]> bag))
    = fields_view (with_properties image (delete k bag)).
Proof.
  apply fields_view_ext. intros key _. apply index_insert_nil.
Qed.

(** X9: a key that is not one of the thirteen of the view never shows in
    it: adding it to the bag, with any value, leaves the view as it was. *)
Theorem undeclared_key_not_in_view image bag k v :
  k ∉ field_table.*2 →
  fields_view (with_properties image (<[k := v]> bag))
    = fields_view (with_properties image bag).
Proof.
  intros Hk. apply fields_view_ext. intros key Hin. cbn.
  unfold index. rewrite lookup_insert_ne; [done|]. by intros ->.
Qed.

Lemma undeclared_key_not_in_view_witness :
  ("unikorn:os:flavour" ∉ field_table.*2)
  ∧ fields_view (with_properties (image_of 0 ∅)
                   (<[ "unikorn:os:flavour" := Str "server" ]> bag_minimal))
    = fields_view (with_properties (image_of 0 ∅) bag_minimal).
Proof.
  assert ("unikorn:os:flavour" ∉ field_table.*2) as Hk by by_evaluation.
  split; [exact Hk|].
  exact (undeclared_key_not_in_view _ bag_minimal _ (Str "server") Hk).
Defined.

(** ** What the eligibility filter reads *)

(** X10: adding a key to a bag puts the image in scope when the key starts
    with "unikorn:", and otherwise leaves it in or out of scope as it was;
    the value added plays no part. *)
Theorem in_scope_insert image bag k v :
  in_scope (with_properties image (<[k := v]> bag))
    = String.prefix "unikorn:" k || in_scope (with_properties image bag).
Proof.
  apply eq_true_iff_eq. rewrite orb_true_iff, !in_scope_spec. cbn.
  setoid_rewrite dom_insert_L. setoid_rewrite elem_of_union.
  setoid_rewrite elem_of_singleton. split.
  - intros (k' & [->|Hdom] & Hprefix); [by left|]. right. by exists k'.
  - intros [Hprefix|(k' & Hdom & Hprefix)].
    + exists k. split; [by left|done].
    + exists k'. split; [by right|done].
Qed.

(** X11: the filter looks at the keys of a bag only: changing every value
    leaves the image in or out of scope as it was, and an image with no
    property at all is out of scope. *)
Theorem in_scope_reads_keys_only image bag (f : any → any) :
  in_scope (with_properties image (f <$> bag))
    = in_scope (with_properties image bag)
  ∧ in_scope (with_properties image ∅) = false.
Proof.
  split; [|done].
  apply eq_true_iff_eq. rewrite !in_scope_spec. cbn. by rewrite dom_fmap_L.
Qed.

(** X12: the filter keeps the images in scope in the order of the listing,
    drops all the others, and filtering again changes nothing. *)
Theorem eligible_sublist_in_scope result :
  eligible result `sublist_of` result
  ∧ (∀ image, image ∈ eligible result ↔ image ∈ result ∧ in_scope image = true)
  ∧ eligible (eligible result) = eligible result.
Proof.
  unfold eligible. split; [apply sublist_filter|]. split.
  - intros image. rewrite list_elem_of_filter. tauto.
  - rewrite list_filter_filter. apply list_filter_iff. tauto.
Qed.

(** ** More on the size and on the loop *)

(** X13: the size reported is 0 exactly for the images of less than one
    GiB (and not of negative size). *)
Theorem sizeGiB_zero_iff image :
  sizeGiB image = 0 ↔ 0 ≤ SizeBytes image < 2 ^ 30.
Proof.
  rewrite sizeGiB_div, Z.div_small_iff by lia. lia.
Qed.

(** X14: the size reported grows with the size in bytes: of two images, the
    one with no more bytes reports no more GiB. *)
Theorem sizeGiB_monotone image1 image2 :
  SizeBytes image1 ≤ SizeBytes image2 → sizeGiB image1 ≤ sizeGiB image2.
Proof.
  intros Hle. rewrite !sizeGiB_div. apply Z.div_le_mono; lia.
Qed.

Lemma sizeGiB_monotone_witness :
  SizeBytes (image_of 3221225472 ∅) ≤ SizeBytes (image_of 3400000000 ∅)
  ∧ sizeGiB (image_of 3221225472 ∅) ≤ sizeGiB (image_of 3400000000 ∅).
Proof.
  assert (SizeBytes (image_of 3221225472 ∅) ≤ SizeBytes (image_of 3400000000 ∅))
    as Hle by (cbn; lia).
  split; [exact Hle|]. exact (sizeGiB_monotone _ _ Hle).
Defined.

(** X15: the loop over a listing made of two parts is the loop over the
    second part, started on what the loop over the first has printed; what
    was printed before stays at the front. *)
Theorem run_app schema before after stdout :
  run schema (before ++ after) stdout
    = run schema after (run schema before stdout)
  ∧ stdout `prefix_of` run schema before stdout.
Proof.
  split.
  - revert stdout. induction before as [|image before IH]; intros stdout; [done|].
    cbn [app run]. apply IH.
  - rewrite run_eq. by apply prefix_app_r.
Qed.
